(** * The quantitative core of the property calculator (app.py)

    The calculator's helper functions ([amort_payment], [loan_balance],
    [irr], [calc_bsd], [calc_absd], [calc_max_loan]) are embedded as Rocq
    functions and the properties the specification states about them are
    settled here.

    Two arithmetic models are used.

    - Module [Exact] reads every Python number as a rational ([Q]) and every
      operator as the exact operation.  A division whose divisor is zero
      raises [ZeroDivisionError], as [/] and [**] do in Python; everything
      else is total.  Rounding, overflow and NaN do not exist in this model.
    - Module [Binary64] evaluates the two duty functions, which use nothing
      but [+], [-], [*] and comparisons, on IEEE-754 binary64 numbers, the
      representation of a Python [float].

    Module [App] holds what the page script computes from the widgets'
    values in its three tabs, over the functions of [Exact]. *)

From Stdlib Require Import ZArith QArith Qabs Qpower Qround Lqa Lia.
From Stdlib Require Import List String Bool Floats.
Import ListNotations.

Set Warnings "-inexact-float".

(** * Python's numeric primitives over the rationals *)

Module Py.

Open Scope Q_scope.

(** The exceptions the modelled operators raise: a zero divisor, and a list
    index out of range. *)
Inductive exn : Type :=
| ZeroDivisionError
| IndexError.

(** The outcome of a call: a value, or a raised exception. *)
Inductive res (A : Type) : Type :=
| Ok (a : A)
| Raise (e : exn).

Arguments Ok {A} a.
Arguments Raise {A} e.

Definition bind {A B : Type} (c : res A) (k : A -> res B) : res B :=
  match c with
  | Ok a => k a
  | Raise e => Raise e
  end.

Notation "x <- c ;; k" := (bind c (fun x => k))
  (at level 61, c at next level, right associativity).

(** [c] returns a number equal to [v]. *)
Definition returns (c : res Q) (v : Q) : Prop :=
  match c with
  | Ok x => x == v
  | Raise _ => False
  end.

(** [xs[i]] *)
Definition index {A : Type} (xs : list A) (i : nat) : res A :=
  match nth_error xs i with
  | Some x => Ok x
  | None => Raise IndexError
  end.

(** [x < y] as a test. *)
Definition Qltb (x y : Q) : bool := negb (Qle_bool y x).

(** [a / b]: true division, raising on a zero divisor. *)
Definition truediv (a b : Q) : res Q :=
  if Qeq_bool b 0 then Raise ZeroDivisionError else Ok (a / b).

(** [x ** n] for an integer exponent [n]: zero to a negative power raises. *)
Definition pow (x : Q) (n : Z) : res Q :=
  if Qeq_bool x 0 && (n <? 0)%Z then Raise ZeroDivisionError else Ok (x ^ n).

(** [int(x)]: truncation toward zero. *)
Definition int (x : Q) : Z := Z.quot (Qnum x) (Z.pos (Qden x)).

(** [min(a, b)] keeps [a] unless [b < a]; [max(a, b)] keeps [a] unless
    [b > a]. *)
Definition min (a b : Q) : Q := if Qltb b a then b else a.
Definition max (a b : Q) : Q := if Qltb a b then b else a.

End Py.

(** * The program over exact arithmetic *)

Module Exact.

Import Py.
Open Scope Q_scope.

(** ** Helper functions *)

Definition amort_payment (principal annual_rate years : Q) : res Q :=
  if Qle_bool principal 0 || Qle_bool years 0 then Ok 0
  else
    let r := annual_rate / 12 / 100 in
    let n := int (years * 12) in
    if Qeq_bool r 0 then truediv principal (inject_Z n)
    else
      p <- pow (1 + r) n ;;
      p' <- pow (1 + r) n ;;
      truediv (principal * r * p) (p' - 1).

(** The body of the [for _ in range(months_elapsed)] loop of
    [loan_balance], run [k] times. *)
Fixpoint balance_loop (pmt r : Q) (k : nat) (bal : Q) : Q :=
  match k with
  | O => bal
  | S k' =>
      let interest := bal * r in
      let principal_pay := pmt - interest in
      balance_loop pmt r k' (max 0 (bal - principal_pay))
  end.

Definition loan_balance (principal annual_rate years : Q)
    (months_elapsed : Z) : res Q :=
  pmt <- amort_payment principal annual_rate years ;;
  let r := annual_rate / 12 / 100 in
  Ok (balance_loop pmt r (Z.to_nat months_elapsed) principal).

(** The inner loop of [irr]: one pass over [enumerate(cashflows)], from
    index [t] on, updating the pair [(npv, d_npv)]. *)
Fixpoint npv_loop (r : Q) (t : Z) (cashflows : list Q) (acc : Q * Q)
    : res (Q * Q) :=
  match cashflows with
  | [] => Ok acc
  | cf :: rest =>
      let '(npv, d_npv) := acc in
      denom <- pow (1 + r) t ;;
      q <- truediv cf denom ;;
      let npv := npv + q in
      d_npv <- (if (0 <? t)%Z
                then
                  denom' <- pow (1 + r) (t + 1) ;;
                  q' <- truediv (inject_Z t * cf) denom' ;;
                  Ok (d_npv - q')
                else Ok d_npv) ;;
      npv_loop r (t + 1) rest (npv, d_npv)
  end.

(** How one iteration of the outer loop of [irr] ends. *)
Inductive iteration : Type :=
| Break              (* [abs(d_npv) < 1e-12]: leave the loop *)
| Return (new_r : Q) (* [abs(new_r - r) < tol]: return [new_r] *)
| Next (new_r : Q).  (* go on with [r = new_r] *)

Definition irr_iteration (cashflows : list Q) (r tol : Q) : res iteration :=
  sums <- npv_loop r 0 cashflows (0, 0) ;;
  let '(npv, d_npv) := sums in
  if Qltb (Qabs d_npv) 1e-12 then Ok Break
  else
    q <- truediv npv d_npv ;;
    let new_r := r - q in
    if Qltb (Qabs (new_r - r)) tol then Ok (Return new_r)
    else Ok (Next new_r).

Fixpoint irr_loop (cashflows : list Q) (tol : Q) (k : nat) (r : Q) : res Q :=
  match k with
  | O => Ok r
  | S k' =>
      it <- irr_iteration cashflows r tol ;;
      match it with
      | Break => Ok r
      | Return new_r => Ok new_r
      | Next new_r => irr_loop cashflows tol k' new_r
      end
  end.

Definition irr (cashflows : list Q) (guess tol : Q) (max_iter : Z) : res Q :=
  irr_loop cashflows tol (Z.to_nat max_iter) guess.

(** The defaults of [irr]'s keyword arguments. *)
Definition default_guess : Q := 0.08.
Definition default_tol : Q := 1e-6.
Definition default_max_iter : Z := 100.

(** ** Duty tables *)

(** A tier width: a number, or [float("inf")]. *)
Inductive width : Type :=
| Fin (w : Q)
| Inf.

Definition BSD_TIERS : list (width * Q) :=
  [ (Fin 180000, 0.01);
    (Fin 180000, 0.02);
    (Fin 640000, 0.03);
    (Fin 500000, 0.04);
    (Fin 1500000, 0.05);
    (Inf, 0.06) ].

Definition ABSD_TABLE : list (string * list Q) :=
  [ ("SC"%string, [0.00; 0.20; 0.30]);
    ("PR"%string, [0.05; 0.30; 0.35]);
    ("Foreigner"%string, [0.60; 0.60; 0.60]);
    ("Entity"%string, [0.65; 0.65; 0.65]);
    ("Trust"%string, [0.65; 0.65; 0.65]) ].

(** ** Core functions *)

(** [min(remaining, tier_amt)]: nothing is smaller than infinity. *)
Definition min_width (remaining : Q) (tier_amt : width) : Q :=
  match tier_amt with
  | Fin w => min remaining w
  | Inf => remaining
  end.

Fixpoint bsd_loop (tiers : list (width * Q)) (bsd remaining : Q) : Q :=
  match tiers with
  | [] => bsd
  | (tier_amt, rate) :: rest =>
      let take := min_width remaining tier_amt in
      let bsd := bsd + take * rate in
      let remaining := remaining - take in
      if Qle_bool remaining 0 then bsd else bsd_loop rest bsd remaining
  end.

Definition calc_bsd (amount : Q) : Q := bsd_loop BSD_TIERS 0 amount.

(** Dictionary lookup by key. *)
Fixpoint lookup {A : Type} (key : string) (table : list (string * A))
    : option A :=
  match table with
  | [] => None
  | (k, v) :: rest => if String.eqb key k then Some v else lookup key rest
  end.

Definition bucket (count : Z) : nat :=
  if (count =? 0)%Z then 0%nat else if (count =? 1)%Z then 1%nat else 2%nat.

Definition calc_absd (amount : Q) (profile : string) (count : Z) : res Q :=
  match lookup profile ABSD_TABLE with
  | None => Ok 0
  | Some rates =>
      let idx := bucket count in
      rate <- index rates idx ;;
      Ok (amount * rate)
  end.

Definition is_hdb_or_ec (property_type : string) : bool :=
  String.eqb property_type "HDB" || String.eqb property_type "EC".

Definition tdsr_cap : Q := 0.55.

Definition msr_cap (property_type : string) : Q :=
  if is_hdb_or_ec property_type then 0.30 else 1.0.

Definition avail_tdsr (income debts : Q) : Q :=
  max 0 (income * tdsr_cap - debts).

Definition avail_msr (income : Q) (property_type : string) : Q :=
  income * msr_cap property_type.

Definition monthly_cap (income debts : Q) (property_type : string) : Q :=
  min (avail_tdsr income debts) (avail_msr income property_type).

(** The annuity inversion at the end of [calc_max_loan]: the loan a monthly
    payment [cap] services at the monthly rate [r] over [n] months. *)
Definition loan_of_cap (cap r : Q) (n : Z) : res Q :=
  if Qeq_bool r 0 then Ok (cap * inject_Z n)
  else
    p <- pow (1 + r) n ;;
    p' <- pow (1 + r) n ;;
    truediv (cap * (p - 1)) (r * p').

Definition calc_max_loan (income debts : Q) (age : Z) (tenure rate : Q)
    (property_type loan_type : string) : res Q :=
  let stress_rate := rate + 3.0 in
  let r := stress_rate / 12 / 100 in
  let n := int (tenure * 12) in
  loan_of_cap (monthly_cap income debts property_type) r n.

End Exact.

(** * The duty functions over binary64 *)

Module Binary64.

Open Scope float_scope.

Definition min (a b : float) : float := if PrimFloat.ltb b a then b else a.

Definition BSD_TIERS : list (float * float) :=
  [ (180000, 0.01);
    (180000, 0.02);
    (640000, 0.03);
    (500000, 0.04);
    (1500000, 0.05);
    (infinity, 0.06) ].

Definition ABSD_TABLE : list (string * list float) :=
  [ ("SC"%string, [0.00; 0.20; 0.30]);
    ("PR"%string, [0.05; 0.30; 0.35]);
    ("Foreigner"%string, [0.60; 0.60; 0.60]);
    ("Entity"%string, [0.65; 0.65; 0.65]);
    ("Trust"%string, [0.65; 0.65; 0.65]) ].

Fixpoint bsd_loop (tiers : list (float * float)) (bsd remaining : float)
    : float :=
  match tiers with
  | [] => bsd
  | (tier_amt, rate) :: rest =>
      let take := min remaining tier_amt in
      let bsd := bsd + take * rate in
      let remaining := remaining - take in
      if PrimFloat.leb remaining 0 then bsd else bsd_loop rest bsd remaining
  end.

Definition calc_bsd (amount : float) : float := bsd_loop BSD_TIERS 0 amount.

Definition calc_absd (amount : float) (profile : string) (count : Z)
    : Py.res float :=
  match Exact.lookup profile ABSD_TABLE with
  | None => Py.Ok 0
  | Some rates =>
      let idx := Exact.bucket count in
      Py.bind (Py.index rates idx) (fun rate => Py.Ok (amount * rate))
  end.

End Binary64.

(** * The page script: what the three tabs compute from the widgets *)

Module App.

Import Py.
Open Scope Q_scope.

(** The values the sidebar and the third tab's inputs hold: [selectbox]
    yields one of its options, [number_input] a number between its bounds
    (a whole one where the bounds are whole), [checkbox] a boolean. *)
Record widgets : Type := {
  profile : string;
  property_type : string;
  loan_type : string;
  income : Q;
  debts : Q;
  age : Z;
  tenure : Z;
  rate : Q;
  price : Q;
  valuation : Q;
  use_higher : bool;
  count : Z;
  rent : Q;
  years : Z;
  price_growth : Q;
  agent_fee : Q
}.

Definition between (lo x hi : Q) : bool := Qle_bool lo x && Qle_bool x hi.
Definition betweenZ (lo x hi : Z) : bool := (lo <=? x)%Z && (x <=? hi)%Z.

Definition one_of (options : list string) (x : string) : bool :=
  existsb (String.eqb x) options.

(** The bounds and options the widgets are created with. *)
Definition in_range (w : widgets) : bool :=
  one_of ["SC"; "PR"; "Foreigner"; "Entity"; "Trust"]%string (profile w) &&
  one_of ["HDB"; "EC"; "Private"]%string (property_type w) &&
  one_of ["Bank"; "HDB"]%string (loan_type w) &&
  between 0 (income w) 1000000 &&
  between 0 (debts w) 1000000 &&
  betweenZ 18 (age w) 75 &&
  betweenZ 1 (tenure w) 35 &&
  between 0 (rate w) 15 &&
  between 0 (price w) 100000000 &&
  between 0 (valuation w) 100000000 &&
  betweenZ 0 (count w) 10 &&
  between 0 (rent w) 100000 &&
  betweenZ 1 (years w) 40 &&
  between (-10) (price_growth w) 20 &&
  between 0 (agent_fee w) 5.

Definition base (w : widgets) : Q :=
  if use_higher w then max (price w) (valuation w) else price w.

(** ** Eligibility & Loan *)

Definition max_loan (w : widgets) : res Q :=
  Exact.calc_max_loan (income w) (debts w) (age w) (inject_Z (tenure w))
    (rate w) (property_type w) (loan_type w).

Definition monthly (w : widgets) : res Q :=
  max_loan <- max_loan w ;;
  Exact.amort_payment max_loan (rate w) (inject_Z (tenure w)).

Definition refi_years (w : widgets) : Z :=
  let x := (75 - age w)%Z in if (0 <? x)%Z then x else 0%Z.

(** ** Stamp Duties *)

Definition bsd (w : widgets) : Q := Exact.calc_bsd (base w).

Definition absd (w : widgets) : res Q :=
  Exact.calc_absd (base w) (profile w) (count w).

Definition total_duties (w : widgets) : res Q :=
  absd <- absd w ;;
  Ok (bsd w + absd).

(** ** Buy vs Rent *)

Definition sale_price (w : widgets) : res Q :=
  growth <- pow (1 + price_growth w / 100) (years w) ;;
  Ok (price w * growth).

Definition buy_cfs (w : widgets) : res (list Q) :=
  max_loan <- max_loan w ;;
  monthly <- monthly w ;;
  absd <- absd w ;;
  sale_price <- sale_price w ;;
  let sale_cost := sale_price * agent_fee w / 100 in
  let downpayment := price w - max_loan in
  let annual_instal := monthly * 12 in
  Ok ((- downpayment - bsd w - absd)
      :: repeat (- annual_instal) (Z.to_nat (years w - 1))
      ++ [- annual_instal + (sale_price - sale_cost)]).


Definition irr_buy (w : widgets) : res Q :=
  buy_cfs <- buy_cfs w ;;
  Exact.irr buy_cfs Exact.default_guess Exact.default_tol
    Exact.default_max_iter.

(** The page as it first loads: every widget at its default. *)
Definition defaults : widgets := {|
  profile := "SC";
  property_type := "Private";
  loan_type := "Bank";
  income := 12000;
  debts := 0;
  age := 35;
  tenure := 30;
  rate := 3.5;
  price := 1800000;
  valuation := 1800000;
  use_higher := true;
  count := 0;
  rent := 4500;
  years := 10;
  price_growth := 2.0;
  agent_fee := 2.0
|}.

End App.




Import Py.
Open Scope Q_scope.

(** * Buyer's stamp duty *)

(** C1: [calc_bsd] reproduces the fixed progressive tier table: the table is
    180000 at 1%, 180000 at 2%, 640000 at 3%, 500000 at 4%, 1500000 at 5% and
    an unbounded last tier at 6%, and on it [calc_bsd(0)] is 0,
    [calc_bsd(180000)] is 1800 and [calc_bsd(1000000)] is 24600, the sum
    180000*0.01 + 180000*0.02 + 640000*0.03; the three values are the same
    in exact arithmetic and in binary64. *)
Theorem calc_bsd_tier_table :
  Exact.BSD_TIERS =
    [ (Exact.Fin 180000, 0.01); (Exact.Fin 180000, 0.02);
      (Exact.Fin 640000, 0.03); (Exact.Fin 500000, 0.04);
      (Exact.Fin 1500000, 0.05); (Exact.Inf, 0.06) ] /\
  Exact.calc_bsd 0 == 0 /\
  Exact.calc_bsd 180000 == 1800 /\
  Exact.calc_bsd 1000000 == 24600 /\
  Exact.calc_bsd 1000000 == 180000 * 0.01 + 180000 * 0.02 + 640000 * 0.03 /\
  Binary64.calc_bsd 0 = 0%float /\
  Binary64.calc_bsd 180000 = 1800%float /\
  Binary64.calc_bsd 1000000 = 24600%float.
Proof.
  repeat split; vm_compute; reflexivity.
Qed.

(** * Additional buyer's stamp duty *)

Lemma bucket_clamps (count : Z) : (2 <= count)%Z -> Exact.bucket count = 2%nat.
Proof.
  intros H. unfold Exact.bucket.
  destruct (Z.eqb_spec count 0); [lia|].
  destruct (Z.eqb_spec count 1); [lia|reflexivity].
Qed.

Lemma bucket_le_2 (count : Z) : (Exact.bucket count <= 2)%nat.
Proof.
  unfold Exact.bucket.
  destruct (count =? 0)%Z; [lia|]. destruct (count =? 1)%Z; lia.
Qed.

(** Every row of the table holds three rates. *)
Lemma ABSD_TABLE_rows (profile : string) (rates : list Q) :
  Exact.lookup profile Exact.ABSD_TABLE = Some rates ->
  List.length rates = 3%nat.
Proof.
  unfold Exact.ABSD_TABLE. simpl.
  repeat (destruct (String.eqb profile _);
          [intros E; injection E as <-; reflexivity|]).
  discriminate.
Qed.

(** The profiles the table knows are the five of the specification. *)
Lemma ABSD_TABLE_profiles (profile : string) :
  Exact.lookup profile Exact.ABSD_TABLE = None <->
  ~ In profile ["SC"; "PR"; "Foreigner"; "Entity"; "Trust"]%string.
Proof.
  unfold Exact.ABSD_TABLE. simpl. split.
  - intros E H.
    repeat (destruct H as [<-|H]; [vm_compute in E; discriminate|]).
    exact H.
  - intros H.
    destruct (String.eqb_spec profile "SC") as [->|_];
      [exfalso; apply H; simpl; tauto|].
    destruct (String.eqb_spec profile "PR") as [->|_];
      [exfalso; apply H; simpl; tauto|].
    destruct (String.eqb_spec profile "Foreigner") as [->|_];
      [exfalso; apply H; simpl; tauto|].
    destruct (String.eqb_spec profile "Entity") as [->|_];
      [exfalso; apply H; simpl; tauto|].
    destruct (String.eqb_spec profile "Trust") as [->|_];
      [exfalso; apply H; simpl; tauto|].
    reflexivity.
Qed.

(** C7: [calc_absd] is the amount times the flat rate the table gives for
    the profile and the bucket of the count (bucket 0 for count 0, bucket 1
    for count 1, bucket 2 for every count of 2 or more), and 0 for a profile
    the table does not have; so [calc_absd(1000000, "SC", 0)] is 0,
    [calc_absd(1000000, "Foreigner", 0)] is 600000 and
    [calc_absd(1000000, "Entity", 5)] is 650000, in exact arithmetic and in
    binary64 alike. *)
Theorem calc_absd_flat_rate (amount : Q) (profile : string) (count : Z) :
  (Exact.bucket 0 = 0%nat /\ Exact.bucket 1 = 1%nat /\
   ((2 <= count)%Z -> Exact.bucket count = 2%nat)) /\
  (forall rates, Exact.lookup profile Exact.ABSD_TABLE = Some rates ->
     exists rate, nth_error rates (Exact.bucket count) = Some rate /\
                  Exact.calc_absd amount profile count = Ok (amount * rate)) /\
  (Exact.lookup profile Exact.ABSD_TABLE = None ->
     Exact.calc_absd amount profile count = Ok 0) /\
  (returns (Exact.calc_absd 1000000 "SC" 0) 0 /\
   returns (Exact.calc_absd 1000000 "Foreigner" 0) 600000 /\
   returns (Exact.calc_absd 1000000 "Entity" 5) 650000) /\
  (Binary64.calc_absd 1000000 "SC" 0 = Ok 0%float /\
   Binary64.calc_absd 1000000 "Foreigner" 0 = Ok 600000%float /\
   Binary64.calc_absd 1000000 "Entity" 5 = Ok 650000%float).
Proof.
  split; [|split; [|split; [|split]]].
  - split; [reflexivity|]. split; [reflexivity|]. apply bucket_clamps.
  - intros rates E.
    pose proof (ABSD_TABLE_rows _ _ E) as L.
    pose proof (bucket_le_2 count) as B.
    destruct (nth_error rates (Exact.bucket count)) as [rate|] eqn:N.
    + exists rate. split; [reflexivity|].
      unfold Exact.calc_absd, index. rewrite E. simpl. rewrite N. reflexivity.
    + apply nth_error_None in N. lia.
  - intros E. unfold Exact.calc_absd. rewrite E. reflexivity.
  - repeat split; vm_compute; reflexivity.
  - repeat split; vm_compute; reflexivity.
Qed.

Lemma calc_absd_flat_rate_witness :
  exists rate,
    nth_error [0.05; 0.30; 0.35] (Exact.bucket 7) = Some rate /\
    Exact.calc_absd 500000 "PR" 7 = Ok (500000 * rate).
Proof.
  destruct (calc_absd_flat_rate 500000 "PR" 7) as [_ [H _]].
  apply H. reflexivity.
Defined.

(** * Loan eligibility: inert parameters *)

(** C8: [age] and [loan_type] do not alter [calc_max_loan]: with all the
    other arguments equal, any two ages and any two loan types give the same
    result. *)
Theorem calc_max_loan_age_loan_type_inert
    (income debts tenure rate : Q) (property_type : string)
    (age1 age2 : Z) (lt1 lt2 : string) :
  Exact.calc_max_loan income debts age1 tenure rate property_type lt1 =
  Exact.calc_max_loan income debts age2 tenure rate property_type lt2.
Proof.
  reflexivity.
Qed.

(** * Facts about the numeric primitives *)

Lemma Qltb_true (x y : Q) : Qltb x y = true <-> x < y.
Proof.
  unfold Qltb. rewrite negb_true_iff. split.
  - intros E. apply Qnot_le_lt. intros L.
    apply Qle_bool_iff in L. congruence.
  - intros L. destruct (Qle_bool y x) eqn:E; [|reflexivity].
    apply Qle_bool_iff in E. exfalso. apply (Qlt_not_le _ _ L E).
Qed.

Lemma Qltb_false (x y : Q) : Qltb x y = false <-> y <= x.
Proof.
  unfold Qltb. rewrite negb_false_iff. apply Qle_bool_iff.
Qed.

Lemma truediv_ok (a b : Q) : ~ b == 0 -> truediv a b = Ok (a / b).
Proof.
  intros H. unfold truediv. destruct (Qeq_bool b 0) eqn:E; [|reflexivity].
  apply Qeq_bool_iff in E. contradiction.
Qed.

Lemma truediv_raise (a b : Q) : b == 0 -> truediv a b = Raise ZeroDivisionError.
Proof.
  intros H. unfold truediv. apply Qeq_bool_iff in H. rewrite H. reflexivity.
Qed.

Lemma pow_nonneg_exp (x : Q) (n : Z) : (0 <= n)%Z -> pow x n = Ok (x ^ n).
Proof.
  intros H. unfold pow. destruct (Z.ltb_spec n 0); [lia|].
  rewrite andb_false_r. reflexivity.
Qed.

Lemma pow_nonzero_base (x : Q) (n : Z) : ~ x == 0 -> pow x n = Ok (x ^ n).
Proof.
  intros H. unfold pow. destruct (Qeq_bool x 0) eqn:E; [|reflexivity].
  apply Qeq_bool_iff in E. contradiction.
Qed.

Lemma max_0_nonneg (x : Q) : 0 <= max 0 x.
Proof.
  unfold max. destruct (Qltb 0 x) eqn:E.
  - apply Qltb_true in E. lra.
  - lra.
Qed.

Lemma max_0_id (x : Q) : 0 <= x -> max 0 x == x.
Proof.
  intros H. unfold max. destruct (Qltb 0 x) eqn:E.
  - reflexivity.
  - apply Qltb_false in E. lra.
Qed.

Lemma max_0_le (x b : Q) : x <= b -> 0 <= b -> max 0 x <= b.
Proof.
  intros H1 H2. unfold max. destruct (Qltb 0 x); assumption.
Qed.

Lemma int_nonneg (q : Q) : 0 <= q -> (0 <= int q)%Z.
Proof.
  destruct q as [a b]. unfold Qle, int. simpl. intros H.
  apply Z.quot_pos; lia.
Qed.

Lemma int_ge_1 (q : Q) : 1 <= q -> (1 <= int q)%Z.
Proof.
  destruct q as [a b]. unfold Qle, int. simpl. intros H.
  apply Z.quot_le_lower_bound; lia.
Qed.

Lemma int_inject_Z (z : Z) : int (inject_Z z) = z.
Proof.
  unfold int. simpl. apply Z.quot_1_r.
Qed.

(** * The IRR solver *)

Lemma npv_loop_total (r : Q) (cashflows : list Q) :
  ~ 1 + r == 0 ->
  forall t acc, exists sums, Exact.npv_loop r t cashflows acc = Ok sums.
Proof.
  intros Hr. induction cashflows as [|cf rest IH]; intros t [npv d_npv].
  - eexists. reflexivity.
  - simpl. rewrite (pow_nonzero_base _ t Hr). simpl.
    rewrite truediv_ok by (apply Qpower_not_0; exact Hr). simpl.
    destruct (0 <? t)%Z.
    + rewrite (pow_nonzero_base _ (t + 1) Hr). simpl.
      rewrite truediv_ok by (apply Qpower_not_0; exact Hr). simpl.
      apply IH.
    + simpl. apply IH.
Qed.

Lemma npv_loop_zero_base (r : Q) (cf : Q) (rest : list Q) (t : Z) (acc : Q * Q) :
  1 + r == 0 -> (0 < t)%Z ->
  Exact.npv_loop r t (cf :: rest) acc = Raise ZeroDivisionError.
Proof.
  intros Hr Ht. destruct acc as [npv d_npv]. simpl.
  rewrite pow_nonneg_exp by lia. simpl.
  rewrite truediv_raise; [reflexivity|].
  rewrite Hr. apply Qpower_0. lia.
Qed.

(** The first cash flow is not discounted and leaves the derivative alone. *)
Lemma npv_loop_first (r cf : Q) (rest : list Q) (npv d_npv : Q) :
  Exact.npv_loop r 0 (cf :: rest) (npv, d_npv) =
  Exact.npv_loop r 1 rest (npv + cf / 1, d_npv).
Proof.
  cbn [Exact.npv_loop].
  rewrite pow_nonneg_exp by lia. cbn [bind].
  rewrite truediv_ok by (vm_compute; discriminate).
  reflexivity.
Qed.

(** One iteration raises exactly when it discounts a second cash flow at
    the rate -1, and then it is the division by zero. *)
Lemma irr_iteration_raises (cashflows : list Q) (r tol : Q) (e : exn) :
  Exact.irr_iteration cashflows r tol = Raise e <->
  (e = ZeroDivisionError /\ 1 + r == 0 /\ (2 <= List.length cashflows)%nat).
Proof.
  assert (Hlast : forall npv d_npv,
    (if Qltb (Qabs d_npv) 1e-12 then Ok Exact.Break
     else q <- truediv npv d_npv ;;
          (if Qltb (Qabs (r - q - r)) tol then Ok (Exact.Return (r - q))
           else Ok (Exact.Next (r - q)))) <> Raise e).
  { intros npv d_npv. destruct (Qltb (Qabs d_npv) 1e-12) eqn:E; [discriminate|].
    apply Qltb_false in E.
    rewrite truediv_ok.
    - simpl. destruct (Qltb _ tol); discriminate.
    - intros Z. rewrite Z in E. vm_compute in E. apply E. reflexivity. }
  split.
  - intros H. unfold Exact.irr_iteration in H.
    destruct (Qeq_dec (1 + r) 0) as [Hr|Hr].
    + destruct cashflows as [|cf0 [|cf1 rest]].
      * simpl in H. discriminate.
      * exfalso. rewrite npv_loop_first in H. simpl in H. discriminate.
      * split; [|split; [exact Hr|simpl; lia]].
        rewrite npv_loop_first in H.
        rewrite npv_loop_zero_base in H by (assumption || reflexivity).
        simpl in H. congruence.
    + exfalso.
      destruct (npv_loop_total r cashflows Hr 0%Z (0, 0)) as [[npv d_npv] E].
      rewrite E in H. simpl in H. exact (Hlast npv d_npv H).
  - intros (-> & Hr & Hlen).
    destruct cashflows as [|cf0 [|cf1 rest]]; simpl in Hlen; try lia.
    unfold Exact.irr_iteration.
    rewrite npv_loop_first.
    rewrite npv_loop_zero_base by (assumption || reflexivity).
    reflexivity.
Qed.

(** A series of one cash flow leaves the derivative accumulator at 0, so
    the iteration breaks. *)
Lemma irr_iteration_single (cf r tol : Q) :
  Exact.irr_iteration [cf] r tol = Ok Exact.Break.
Proof.
  unfold Exact.irr_iteration. rewrite npv_loop_first. reflexivity.
Qed.

(** A failure of the whole solver is the failure of one of its iterations. *)
Lemma irr_loop_raises (cashflows : list Q) (tol : Q) (e : exn) :
  forall k r, Exact.irr_loop cashflows tol k r = Raise e ->
  exists r', Exact.irr_iteration cashflows r' tol = Raise e.
Proof.
  induction k as [|k IH]; intros r H; simpl in H.
  - discriminate.
  - destruct (Exact.irr_iteration cashflows r tol) as [[| x | x]|e'] eqn:E;
      simpl in H; try discriminate.
    + apply (IH x H).
    + injection H as <-. exists r. exact E.
Qed.

(** C6, as the code has it: [irr] returns the initial guess unchanged for
    every series of one cash flow; when the derivative's magnitude is below
    1e-12 the loop is left and the current rate returned; when the iteration
    budget is used up the last computed rate is returned; and the only
    failure [irr] can signal is the [ZeroDivisionError] of an iteration that
    discounts a series of two or more cash flows at the rate -1. *)
Theorem irr_fallbacks (cashflows : list Q) (guess tol : Q) (max_iter : Z) :
  (forall cf, Exact.irr [cf] guess tol max_iter = Ok guess) /\
  (forall r npv d_npv k,
     Exact.npv_loop r 0 cashflows (0, 0) = Ok (npv, d_npv) ->
     Qabs d_npv < 1e-12 ->
     Exact.irr_loop cashflows tol (S k) r = Ok r) /\
  (forall r, Exact.irr_loop cashflows tol 0 r = Ok r) /\
  (forall r new_r,
     Exact.irr_iteration cashflows r tol = Ok (Exact.Next new_r) ->
     Exact.irr_loop cashflows tol 1 r = Ok new_r) /\
  (forall e,
     Exact.irr cashflows guess tol max_iter = Raise e ->
     e = ZeroDivisionError /\ (2 <= List.length cashflows)%nat /\
     exists r, 1 + r == 0 /\
               Exact.irr_iteration cashflows r tol = Raise ZeroDivisionError).
Proof.
  split; [|split; [|split; [|split]]].
  - intros cf. unfold Exact.irr.
    destruct (Z.to_nat max_iter) as [|k]; [reflexivity|].
    simpl. rewrite irr_iteration_single. reflexivity.
  - intros r npv d_npv k E Hd.
    simpl. unfold Exact.irr_iteration. rewrite E. simpl.
    apply Qltb_true in Hd. rewrite Hd. reflexivity.
  - reflexivity.
  - intros r new_r E. simpl. rewrite E. reflexivity.
  - intros e H. unfold Exact.irr in H.
    destruct (irr_loop_raises _ _ _ _ _ H) as [r E].
    pose proof E as E'.
    apply irr_iteration_raises in E' as (-> & Hr & Hlen).
    split; [reflexivity|]. split; [exact Hlen|].
    exists r. split; assumption.
Qed.

Lemma irr_fallbacks_witness :
  Exact.irr_loop [-100; 0] 1e-6 100 0.08 = Ok 0.08.
Proof.
  destruct (irr_fallbacks [-100; 0] 0.08 1e-6 100) as (_ & H & _).
  eapply H.
  - vm_compute. reflexivity.
  - vm_compute. reflexivity.
Defined.

(** [irr] does signal a failure: at the guess -1 the second cash flow is
    divided by [(1 + r) ** 1 = 0]. *)
Lemma irr_raises_at_minus_one :
  Exact.irr [-100; 110] (-1) Exact.default_tol Exact.default_max_iter =
  Raise ZeroDivisionError.
Proof.
  vm_compute. reflexivity.
Qed.

(** C10: on an empty series [irr] neither raises nor loops: the first
    iteration leaves both accumulators at 0, the near-zero-derivative exit
    fires, and the initial guess (0.08 by default) is returned unchanged. *)
Theorem irr_empty_series (guess tol : Q) (max_iter : Z) :
  Exact.npv_loop guess 0 [] (0, 0) = Ok (0, 0) /\
  Exact.irr_iteration [] guess tol = Ok Exact.Break /\
  Exact.irr [] guess tol max_iter = Ok guess /\
  Exact.irr [] Exact.default_guess Exact.default_tol Exact.default_max_iter =
    Ok 0.08.
Proof.
  split; [reflexivity|]. split; [reflexivity|]. split; [|reflexivity].
  unfold Exact.irr. destruct (Z.to_nat max_iter); reflexivity.
Qed.

(** * Loan eligibility *)

Section Annuity.

(** A positive monthly rate [r] over [n >= 0] months. *)
Variables (r : Q) (n : Z).
Hypothesis r_pos : 0 < r.
Hypothesis n_nonneg : (0 <= n)%Z.

Lemma growth_ge_1 : 1 <= (1 + r) ^ n.
Proof.
  apply Qpower_1_le; [lra|exact n_nonneg].
Qed.

Lemma loan_of_cap_pos_rate (cap : Q) :
  Exact.loan_of_cap cap r n =
  Ok (cap * ((1 + r) ^ n - 1) / (r * (1 + r) ^ n)).
Proof.
  pose proof growth_ge_1 as G.
  unfold Exact.loan_of_cap.
  destruct (Qeq_bool r 0) eqn:E.
  - apply Qeq_bool_iff in E. lra.
  - rewrite pow_nonneg_exp by exact n_nonneg. simpl.
    apply truediv_ok. intros Z. nra.
Qed.

(** The loan grows with the monthly payment it is sized on. *)
Lemma annuity_inversion_monotone (cap1 cap2 : Q) :
  cap1 <= cap2 ->
  cap1 * ((1 + r) ^ n - 1) / (r * (1 + r) ^ n) <=
  cap2 * ((1 + r) ^ n - 1) / (r * (1 + r) ^ n).
Proof.
  pose proof growth_ge_1 as G. intros H.
  assert (D : 0 < r * (1 + r) ^ n) by nra.
  unfold Qdiv. apply Qmult_le_compat_r.
  - nra.
  - apply Qlt_le_weak. apply Qinv_lt_0_compat. exact D.
Qed.

Lemma annuity_inversion_zero :
  0 * ((1 + r) ^ n - 1) / (r * (1 + r) ^ n) == 0.
Proof.
  unfold Qdiv. ring.
Qed.

End Annuity.

Lemma stress_rate_pos (rate : Q) : 0 <= rate -> 0 < (rate + 3.0) / 12 / 100.
Proof.
  intros H. unfold Qdiv.
  assert (I12 : / 12 == 1 # 12) by reflexivity.
  assert (I100 : / 100 == 1 # 100) by reflexivity.
  rewrite I12, I100. lra.
Qed.

Lemma msr_cap_nonneg (property_type : string) :
  0 <= Exact.msr_cap property_type.
Proof.
  unfold Exact.msr_cap. destruct (Exact.is_hdb_or_ec property_type); lra.
Qed.

Lemma msr_cap_le_1 (property_type : string) :
  Exact.msr_cap property_type <= 1.
Proof.
  unfold Exact.msr_cap. destruct (Exact.is_hdb_or_ec property_type); lra.
Qed.

Lemma min_le_l (a b : Q) : min a b <= a.
Proof.
  unfold min. destruct (Qltb b a) eqn:E; [apply Qltb_true in E|]; lra.
Qed.

Lemma min_le_r (a b : Q) : min a b <= b.
Proof.
  unfold min. destruct (Qltb b a) eqn:E; [|apply Qltb_false in E]; lra.
Qed.

Lemma min_glb (a b c : Q) : c <= a -> c <= b -> c <= min a b.
Proof.
  intros Ha Hb. unfold min. destruct (Qltb b a); assumption.
Qed.

Lemma monthly_cap_nonneg (income debts : Q) (property_type : string) :
  0 <= income -> 0 <= Exact.monthly_cap income debts property_type.
Proof.
  intros H. unfold Exact.monthly_cap, Exact.avail_msr. apply min_glb.
  - apply max_0_nonneg.
  - pose proof (msr_cap_nonneg property_type). nra.
Qed.

(** With debts at or above 55% of the income nothing is left to service a
    loan. *)
Lemma monthly_cap_exhausted (income debts : Q) (property_type : string) :
  0 <= income -> income * 0.55 <= debts ->
  Exact.avail_tdsr income debts = 0 /\
  Exact.monthly_cap income debts property_type = 0.
Proof.
  intros Hi Hd.
  assert (T : Exact.avail_tdsr income debts = 0).
  { unfold Exact.avail_tdsr, Exact.tdsr_cap, max.
    destruct (Qltb 0 (income * 0.55 - debts)) eqn:E; [|reflexivity].
    apply Qltb_true in E. lra. }
  split; [exact T|].
  unfold Exact.monthly_cap. rewrite T. unfold min, Exact.avail_msr.
  destruct (Qltb (income * Exact.msr_cap property_type) 0) eqn:E;
    [|reflexivity].
  apply Qltb_true in E. pose proof (msr_cap_nonneg property_type). nra.
Qed.

(** C9: for non-negative income, debts, tenure and rate [calc_max_loan]
    returns a loan that is not negative; and when the debts reach 55% of the
    income, the capacity left under the TDSR cap is clamped to 0 and the
    loan is 0. *)
Theorem calc_max_loan_nonneg (income debts : Q) (age : Z) (tenure rate : Q)
    (property_type loan_type : string) :
  0 <= income -> 0 <= debts -> 0 <= tenure -> 0 <= rate ->
  exists loan,
    Exact.calc_max_loan income debts age tenure rate property_type loan_type
      = Ok loan /\
    0 <= loan /\
    (income * 0.55 <= debts ->
     Exact.avail_tdsr income debts = 0 /\ loan == 0).
Proof.
  intros Hi Hd Ht Hr.
  pose proof (stress_rate_pos rate Hr) as R.
  assert (N : (0 <= int (tenure * 12))%Z) by (apply int_nonneg; lra).
  unfold Exact.calc_max_loan.
  rewrite (loan_of_cap_pos_rate _ _ R N).
  eexists. split; [reflexivity|]. split.
  - eapply Qle_trans;
      [|apply (annuity_inversion_monotone _ _ R N 0);
        apply monthly_cap_nonneg; exact Hi].
    rewrite (annuity_inversion_zero _ _). lra.
  - intros Hx.
    destruct (monthly_cap_exhausted income debts property_type Hi Hx)
      as [T M].
    split; [exact T|]. rewrite M. apply annuity_inversion_zero.
Qed.

Lemma calc_max_loan_nonneg_witness :
  exists loan,
    Exact.calc_max_loan 10000 6000 35 30 3.5 "Private" "Bank" = Ok loan /\
    0 <= loan /\
    (10000 * 0.55 <= 6000 -> Exact.avail_tdsr 10000 6000 = 0 /\ loan == 0).
Proof.
  apply (calc_max_loan_nonneg 10000 6000 35 30 3.5 "Private" "Bank");
    vm_compute; discriminate.
Defined.

(** C5: for the same (non-negative) income, debts, tenure and rate, the
    capacity of a "Private" purchase is the capacity under the 55% TDSR cap
    alone, the MSR cap of 1.0 times the income never being the smaller one,
    and the loan of an "HDB" purchase is at most the loan of the "Private"
    one. *)
Theorem private_tdsr_only_hdb_at_most (income debts : Q) (age : Z)
    (tenure rate : Q) (loan_type : string) :
  0 <= income -> 0 <= debts -> 0 <= tenure -> 0 <= rate ->
  Exact.monthly_cap income debts "Private" = Exact.avail_tdsr income debts /\
  Exact.calc_max_loan income debts age tenure rate "Private" loan_type =
    Exact.loan_of_cap (Exact.avail_tdsr income debts)
      ((rate + 3.0) / 12 / 100) (int (tenure * 12)) /\
  exists hdb private,
    Exact.calc_max_loan income debts age tenure rate "HDB" loan_type
      = Ok hdb /\
    Exact.calc_max_loan income debts age tenure rate "Private" loan_type
      = Ok private /\
    hdb <= private.
Proof.
  intros Hi Hd Ht Hr.
  pose proof (stress_rate_pos rate Hr) as R.
  assert (N : (0 <= int (tenure * 12))%Z) by (apply int_nonneg; lra).
  assert (P : Exact.monthly_cap income debts "Private" =
              Exact.avail_tdsr income debts).
  { unfold Exact.monthly_cap, min.
    destruct (Qltb _ _) eqn:E; [|reflexivity].
    apply Qltb_true in E. exfalso.
    unfold Exact.avail_msr, Exact.avail_tdsr, Exact.tdsr_cap, max in E.
    change (Exact.msr_cap "Private") with 1.0 in E.
    destruct (Qltb 0 (income * 0.55 - debts)); lra. }
  split; [exact P|]. split.
  - unfold Exact.calc_max_loan. rewrite P. reflexivity.
  - unfold Exact.calc_max_loan.
    rewrite !(loan_of_cap_pos_rate _ _ R N).
    eexists. eexists. split; [reflexivity|]. split; [reflexivity|].
    apply (annuity_inversion_monotone _ _ R N).
    rewrite P. apply min_le_l.
Qed.

Lemma private_tdsr_only_hdb_at_most_witness :
  Exact.monthly_cap 12000 0 "Private" = Exact.avail_tdsr 12000 0 /\
  Exact.calc_max_loan 12000 0 35 30 3.5 "Private" "Bank" =
    Exact.loan_of_cap (Exact.avail_tdsr 12000 0)
      ((3.5 + 3.0) / 12 / 100) (int (30 * 12)) /\
  exists hdb private,
    Exact.calc_max_loan 12000 0 35 30 3.5 "HDB" "Bank" = Ok hdb /\
    Exact.calc_max_loan 12000 0 35 30 3.5 "Private" "Bank" = Ok private /\
    hdb <= private.
Proof.
  apply (private_tdsr_only_hdb_at_most 12000 0 35 30 3.5 "Bank");
    vm_compute; discriminate.
Defined.

(** * Amortization *)

Lemma monthly_rate_nonneg (annual_rate : Q) :
  0 <= annual_rate -> 0 <= annual_rate / 12 / 100.
Proof.
  intros H. unfold Qdiv.
  assert (I12 : / 12 == 1 # 12) by reflexivity.
  assert (I100 : / 100 == 1 # 100) by reflexivity.
  rewrite I12, I100. lra.
Qed.

(** The level payment [P * r * p / (p - 1)], for a growth factor [p > 1],
    is positive and covers the interest [P * r]. *)
Lemma level_payment_bounds (P r p : Q) :
  0 < P -> 0 < r -> 1 < p ->
  0 < P * r * p / (p - 1) /\ P * r <= P * r * p / (p - 1).
Proof.
  intros HP Hr Hp.
  assert (I : 0 < P * r) by nra.
  split.
  - apply Qlt_shift_div_l; [lra|]. nra.
  - apply Qle_shift_div_l; [lra|]. nra.
Qed.

Section Payment.

(** A loan of [principal > 0] at a rate that is not negative, over at least
    one month. *)
Variables (principal annual_rate years : Q).
Hypothesis principal_pos : 0 < principal.
Hypothesis rate_nonneg : 0 <= annual_rate.
Hypothesis a_month : 1 <= years * 12.

Let r : Q := annual_rate / 12 / 100.
Let n : Z := int (years * 12).

Lemma months_pos : (1 <= n)%Z.
Proof.
  apply int_ge_1. exact a_month.
Qed.

Lemma months_pos_Q : 1 <= inject_Z n.
Proof.
  pose proof months_pos as H.
  change 1 with (inject_Z 1). rewrite <- Zle_Qle. exact H.
Qed.

Lemma guard_passed :
  Qle_bool principal 0 || Qle_bool years 0 = false.
Proof.
  apply orb_false_iff. split.
  - destruct (Qle_bool principal 0) eqn:E; [|reflexivity].
    apply Qle_bool_iff in E. lra.
  - destruct (Qle_bool years 0) eqn:E; [|reflexivity].
    apply Qle_bool_iff in E. lra.
Qed.

(** Without interest the payment is the straight-line one. *)
Lemma amort_payment_zero_rate :
  r == 0 ->
  Exact.amort_payment principal annual_rate years =
  Ok (principal / inject_Z n).
Proof.
  intros Hr. unfold Exact.amort_payment. rewrite guard_passed.
  fold r. fold n. apply Qeq_bool_iff in Hr. rewrite Hr.
  apply truediv_ok. pose proof months_pos_Q. lra.
Qed.

Lemma growth_gt_1 : 0 < r -> 1 < (1 + r) ^ n.
Proof.
  intros Hr. pose proof months_pos.
  apply Qpower_1_lt; [lra|lia].
Qed.

(** With interest it is the level payment of the annuity. *)
Lemma amort_payment_pos_rate :
  0 < r ->
  Exact.amort_payment principal annual_rate years =
  Ok (principal * r * (1 + r) ^ n / ((1 + r) ^ n - 1)).
Proof.
  intros Hr. pose proof (growth_gt_1 Hr) as G. pose proof months_pos.
  unfold Exact.amort_payment. rewrite guard_passed.
  fold r. fold n.
  destruct (Qeq_bool r 0) eqn:E.
  - apply Qeq_bool_iff in E. lra.
  - rewrite pow_nonneg_exp by lia. simpl.
    apply truediv_ok. lra.
Qed.

Lemma rate_cases : r == 0 \/ 0 < r.
Proof.
  pose proof (monthly_rate_nonneg annual_rate rate_nonneg) as H.
  fold r in H. destruct (Qeq_dec r 0) as [E|E]; [left; exact E|right].
  apply Qle_lteq in H. destruct H as [H|H]; [exact H|].
  exfalso. apply E. symmetry. exact H.
Qed.

Lemma payment_positive :
  exists pmt,
    Exact.amort_payment principal annual_rate years = Ok pmt /\ 0 < pmt.
Proof.
  destruct rate_cases as [Hr|Hr].
  - rewrite (amort_payment_zero_rate Hr). eexists. split; [reflexivity|].
    pose proof months_pos_Q.
    apply Qlt_shift_div_l; lra.
  - rewrite (amort_payment_pos_rate Hr). eexists. split; [reflexivity|].
    apply level_payment_bounds;
      [exact principal_pos|exact Hr|exact (growth_gt_1 Hr)].
Qed.

(** The payment covers the interest on the whole principal. *)
Lemma payment_covers_interest :
  exists pmt,
    Exact.amort_payment principal annual_rate years = Ok pmt /\
    principal * r <= pmt.
Proof.
  destruct rate_cases as [Hr|Hr].
  - rewrite (amort_payment_zero_rate Hr). eexists. split; [reflexivity|].
    pose proof months_pos_Q.
    rewrite Hr. apply Qle_shift_div_l; lra.
  - rewrite (amort_payment_pos_rate Hr). eexists. split; [reflexivity|].
    apply level_payment_bounds;
      [exact principal_pos|exact Hr|exact (growth_gt_1 Hr)].
Qed.

End Payment.

(** C2, as the code has it: for every principal > 0, rate >= 0 and tenure
    of at least one month ([years * 12 >= 1], whole or not),
    [amort_payment] raises nothing and returns a strictly positive
    number. *)
Theorem amort_payment_positive (principal annual_rate years : Q) :
  0 < principal -> 0 <= annual_rate -> 1 <= years * 12 ->
  exists pmt,
    Exact.amort_payment principal annual_rate years = Ok pmt /\ 0 < pmt.
Proof.
  apply payment_positive.
Qed.

Lemma amort_payment_positive_witness :
  exists pmt, Exact.amort_payment 500000 3.5 (5 # 2) = Ok pmt /\ 0 < pmt.
Proof.
  apply (amort_payment_positive 500000 3.5 (5 # 2)); vm_compute;
    (reflexivity || discriminate).
Defined.

(** A tenure under one month has [n = int(years * 12) = 0] months: the
    guard lets it through and the payment formula divides by zero, with or
    without interest. *)
Lemma amort_payment_raises_under_a_month :
  0 < 100 /\ 0 <= 3.5 /\ 0 < 0.05 /\
  Exact.amort_payment 100 3.5 0.05 = Raise ZeroDivisionError /\
  Exact.amort_payment 100 0 0.05 = Raise ZeroDivisionError.
Proof.
  repeat split; vm_compute; (reflexivity || discriminate).
Qed.

(** ** The balance simulation *)

(** One more month is one more step after the months before it. *)
Lemma balance_loop_snoc (pmt r : Q) (k : nat) :
  forall bal,
  Exact.balance_loop pmt r (S k) bal =
  max 0 (Exact.balance_loop pmt r k bal
         - (pmt - Exact.balance_loop pmt r k bal * r)).
Proof.
  induction k as [|k IH]; intros bal.
  - reflexivity.
  - change (Exact.balance_loop pmt r (S (S k)) bal)
      with (Exact.balance_loop pmt r (S k) (max 0 (bal - (pmt - bal * r)))).
    rewrite IH. reflexivity.
Qed.

(** While the payment covers the interest on [P], a balance between 0 and
    [P] stays there. *)
Lemma balance_loop_bounds (pmt r P : Q) :
  0 <= r -> P * r <= pmt ->
  forall k bal, 0 <= bal -> bal <= P ->
  0 <= Exact.balance_loop pmt r k bal /\ Exact.balance_loop pmt r k bal <= P.
Proof.
  intros Hr Hp. induction k as [|k IH]; intros bal H0 HP.
  - simpl. split; assumption.
  - simpl. apply IH.
    + apply max_0_nonneg.
    + apply max_0_le; [|lra].
      assert (bal * r <= P * r) by nra. lra.
Qed.

Lemma payment_covers_interest_from_0 (principal annual_rate years : Q) :
  0 <= principal -> 0 <= annual_rate -> 1 <= years * 12 ->
  exists pmt,
    Exact.amort_payment principal annual_rate years = Ok pmt /\
    principal * (annual_rate / 12 / 100) <= pmt.
Proof.
  intros HP Hr Hy.
  destruct (Qlt_le_dec 0 principal) as [H|H].
  - apply payment_covers_interest; assumption.
  - exists 0. split.
    + unfold Exact.amort_payment.
      apply Qle_bool_iff in H. rewrite H. reflexivity.
    + assert (E : principal == 0) by lra. rewrite E. lra.
Qed.

(** C3, as the code has it: for every principal >= 0, rate >= 0 and tenure
    of at least one month, and every [m >= 0], the balance after [m + 1]
    months is at most the balance after [m] months, and neither is
    negative. *)
Theorem loan_balance_non_increasing (principal annual_rate years : Q)
    (m : Z) :
  0 <= principal -> 0 <= annual_rate -> 1 <= years * 12 -> (0 <= m)%Z ->
  exists bal bal',
    Exact.loan_balance principal annual_rate years m = Ok bal /\
    Exact.loan_balance principal annual_rate years (m + 1) = Ok bal' /\
    bal' <= bal /\ 0 <= bal' /\ 0 <= bal.
Proof.
  intros HP Hr Hy Hm.
  destruct (payment_covers_interest_from_0 _ _ _ HP Hr Hy) as (pmt & E & C).
  pose proof (monthly_rate_nonneg _ Hr) as R.
  unfold Exact.loan_balance. rewrite E. simpl.
  eexists. eexists. split; [reflexivity|]. split; [reflexivity|].
  replace (Z.to_nat (m + 1)) with (S (Z.to_nat m)) by lia.
  rewrite balance_loop_snoc.
  destruct (balance_loop_bounds pmt _ principal R C (Z.to_nat m) principal)
    as [B0 BP]; [exact HP|lra|].
  set (b := Exact.balance_loop pmt (annual_rate / 12 / 100) (Z.to_nat m)
              principal) in *.
  split; [|split; [apply max_0_nonneg|exact B0]].
  apply max_0_le; [|exact B0].
  assert (b * (annual_rate / 12 / 100)
          <= principal * (annual_rate / 12 / 100)) by nra.
  lra.
Qed.

Lemma loan_balance_non_increasing_witness :
  exists bal bal',
    Exact.loan_balance 1000 12 1 3 = Ok bal /\
    Exact.loan_balance 1000 12 1 (3 + 1) = Ok bal' /\
    bal' <= bal /\ 0 <= bal' /\ 0 <= bal.
Proof.
  apply (loan_balance_non_increasing 1000 12 1 3); vm_compute; discriminate.
Defined.

(** Outside that domain the balance can grow and can be negative: with a
    tenure of 0 no payment is made and interest accrues, and a negative
    principal is returned as it is. *)
Lemma loan_balance_grows_or_negative :
  returns (Exact.loan_balance 100 12 0 0) 100 /\
  returns (Exact.loan_balance 100 12 0 1) 101 /\
  ~ 101 <= 100 /\
  returns (Exact.loan_balance (-100) 12 30 0) (-100) /\
  ~ 0 <= -100.
Proof.
  repeat split; vm_compute; (reflexivity || (intros H; apply H; reflexivity)).
Qed.

(** ** Full amortization *)

(** The simulated balance follows any sequence [A] that obeys the
    recurrence of the loop and stays at or above 0, where the floor of the
    loop does nothing. *)
Lemma balance_loop_tracks (pmt r : Q) (A : nat -> Q) (N : nat) :
  (forall j, (j < N)%nat -> A (S j) == A j * (1 + r) - pmt) ->
  (forall j, (j <= N)%nat -> 0 <= A j) ->
  forall k j bal, (j + k <= N)%nat -> bal == A j ->
  Exact.balance_loop pmt r k bal == A (j + k)%nat.
Proof.
  intros Hstep Hpos. induction k as [|k IH]; intros j bal Hjk E.
  - simpl. rewrite Nat.add_0_r. exact E.
  - simpl. replace (j + S k)%nat with (S j + k)%nat by lia.
    assert (Hnext : bal - (pmt - bal * r) == A (S j)).
    { rewrite Hstep by lia. rewrite E. ring. }
    apply IH; [lia|].
    rewrite max_0_id; [exact Hnext|].
    rewrite Hnext. apply Hpos. lia.
Qed.

Lemma inject_Z_of_nat_succ (j : nat) :
  inject_Z (Z.of_nat (S j)) == inject_Z (Z.of_nat j) + 1.
Proof.
  rewrite Nat2Z.inj_succ. unfold Z.succ. rewrite inject_Z_plus. reflexivity.
Qed.

Lemma Qpower_of_nat_succ (q : Q) (j : nat) :
  q ^ Z.of_nat (S j) == q ^ Z.of_nat j * q.
Proof.
  rewrite Nat2Z.inj_succ. unfold Z.succ.
  rewrite Qpower_plus' by lia. rewrite Qpower_1_r. reflexivity.
Qed.

Section FullTerm.

Variables (principal annual_rate years : Q).
Hypothesis principal_pos : 0 < principal.
Hypothesis rate_nonneg : 0 <= annual_rate.
Hypothesis a_month : 1 <= years * 12.

Let r : Q := annual_rate / 12 / 100.
Let n : Z := int (years * 12).

(** The balance after [j] months of a loan without interest. *)
Let straight (j : nat) : Q :=
  principal - inject_Z (Z.of_nat j) * (principal / inject_Z n).

(** The balance after [j] months of a loan with interest. *)
Let annuity (j : nat) : Q :=
  principal * ((1 + r) ^ n - (1 + r) ^ Z.of_nat j) / ((1 + r) ^ n - 1).

Lemma straight_line_amortized :
  r == 0 ->
  Exact.balance_loop (principal / inject_Z n) r (Z.to_nat n) principal == 0.
Proof.
  intros Hr.
  pose proof (months_pos years a_month) as Hn. fold n in Hn.
  pose proof (months_pos_Q years a_month) as HnQ. fold n in HnQ.
  assert (Hq : 0 <= principal / inject_Z n).
  { apply Qle_shift_div_l; lra. }
  rewrite (balance_loop_tracks _ r straight (Z.to_nat n)) with (j := 0%nat).
  - unfold straight. simpl (0 + _)%nat. rewrite Z2Nat.id by lia.
    field. lra.
  - intros j Hj. unfold straight.
    rewrite inject_Z_of_nat_succ, Hr. ring.
  - intros j Hj. unfold straight.
    assert (Hjn : inject_Z (Z.of_nat j) <= inject_Z n).
    { rewrite <- Zle_Qle. lia. }
    assert (E : principal == inject_Z n * (principal / inject_Z n)).
    { field. lra. }
    rewrite E at 1. nra.
  - lia.
  - unfold straight. simpl. ring.
Qed.

Lemma annuity_amortized :
  0 < r ->
  Exact.balance_loop
    (principal * r * (1 + r) ^ n / ((1 + r) ^ n - 1)) r (Z.to_nat n)
    principal == 0.
Proof.
  intros Hr.
  pose proof (months_pos years a_month) as Hn. fold n in Hn.
  pose proof (growth_gt_1 annual_rate years a_month Hr) as G.
  fold r in G. fold n in G.
  rewrite (balance_loop_tracks _ r annuity (Z.to_nat n)) with (j := 0%nat).
  - unfold annuity. simpl (0 + _)%nat. rewrite Z2Nat.id by lia.
    field. lra.
  - intros j Hj. unfold annuity.
    rewrite Qpower_of_nat_succ. field. lra.
  - intros j Hj. unfold annuity.
    assert (M : (1 + r) ^ Z.of_nat j <= (1 + r) ^ n).
    { apply Qpower_le_compat_l; [lia|lra]. }
    apply Qle_shift_div_l; [lra|]. nra.
  - lia.
  - unfold annuity. simpl (Z.of_nat 0). rewrite Qpower_0_r. field. lra.
Qed.

(** After the [n = int(years * 12)] months of its term the loan is paid. *)
Lemma paid_after_term :
  returns (Exact.loan_balance principal annual_rate years n) 0.
Proof.
  unfold Exact.loan_balance.
  destruct (rate_cases annual_rate rate_nonneg) as [Hr|Hr].
  - rewrite (amort_payment_zero_rate _ _ _ principal_pos a_month Hr).
    simpl. apply (straight_line_amortized Hr).
  - rewrite (amort_payment_pos_rate _ _ _ principal_pos a_month Hr).
    simpl. apply (annuity_amortized Hr).
Qed.

End FullTerm.

(** C4: for every principal > 0, rate >= 0 and whole number of years > 0,
    the balance simulated over the full term of [years * 12] months is 0
    (in exact arithmetic): the loan is fully amortized. *)
Theorem loan_balance_fully_amortized (principal annual_rate : Q)
    (years : Z) :
  0 < principal -> 0 <= annual_rate -> (0 < years)%Z ->
  returns
    (Exact.loan_balance principal annual_rate (inject_Z years) (years * 12))
    0.
Proof.
  intros HP Hr Hy.
  assert (Hm : 1 <= inject_Z years * 12).
  { assert (1 <= inject_Z years).
    { change 1 with (inject_Z 1). rewrite <- Zle_Qle. lia. }
    lra. }
  pose proof (paid_after_term principal annual_rate (inject_Z years)
                HP Hr Hm) as H.
  replace (int (inject_Z years * 12)) with (years * 12)%Z in H; [exact H|].
  unfold int. simpl. rewrite Z.quot_1_r. reflexivity.
Qed.

Lemma loan_balance_fully_amortized_witness :
  returns (Exact.loan_balance 1000 12 (inject_Z 1) (1 * 12)) 0.
Proof.
  apply (loan_balance_fully_amortized 1000 12 1); vm_compute;
    (reflexivity || discriminate).
Defined.

(** * Further properties of the duty functions *)

Lemma Qle_bool_false (x y : Q) : Qle_bool x y = false <-> y < x.
Proof.
  rewrite <- Qltb_true. unfold Qltb. rewrite negb_true_iff. reflexivity.
Qed.

(** Turn the tests of a branch into the inequalities they decide. *)
Ltac tests_to_props :=
  repeat match goal with
  | H : Qltb _ _ = true |- _ => apply Qltb_true in H
  | H : Qltb _ _ = false |- _ => apply Qltb_false in H
  | H : Qle_bool _ _ = true |- _ => apply Qle_bool_iff in H
  | H : Qle_bool _ _ = false |- _ => apply Qle_bool_false in H
  end.

(** Split on the outermost undecided test of the goal, dropping the
    branches whose tests contradict each other. *)
Ltac split_test :=
  match goal with
  | |- context [if Qltb ?a ?b then _ else _] =>
      let E := fresh "E" in
      destruct (Qltb a b) eqn:E; tests_to_props; try (exfalso; lra)
  | |- context [if Qle_bool ?a ?b then _ else _] =>
      let E := fresh "E" in
      destruct (Qle_bool a b) eqn:E; tests_to_props; try (exfalso; lra)
  end.

Ltac unfold_calc_bsd :=
  cbv beta iota zeta fix delta
    [Exact.calc_bsd Exact.bsd_loop Exact.BSD_TIERS Exact.min_width min].

(** X1: the duty as a function of the amount, bracket by bracket: the marginal
    rates are 1% up to 180000, 2% up to 360000, 3% up to 1000000, 4% up to
    1500000, 5% up to 3000000 and 6% above; an amount that is not positive
    is charged 1% of itself. *)
Theorem calc_bsd_brackets (amount : Q) :
  (amount <= 180000 -> Exact.calc_bsd amount == amount * 0.01) /\
  (180000 < amount -> amount <= 360000 ->
     Exact.calc_bsd amount == 1800 + (amount - 180000) * 0.02) /\
  (360000 < amount -> amount <= 1000000 ->
     Exact.calc_bsd amount == 5400 + (amount - 360000) * 0.03) /\
  (1000000 < amount -> amount <= 1500000 ->
     Exact.calc_bsd amount == 24600 + (amount - 1000000) * 0.04) /\
  (1500000 < amount -> amount <= 3000000 ->
     Exact.calc_bsd amount == 44600 + (amount - 1500000) * 0.05) /\
  (3000000 < amount ->
     Exact.calc_bsd amount == 119600 + (amount - 3000000) * 0.06).
Proof.
  repeat split; intros; unfold_calc_bsd; repeat split_test; lra.
Qed.

(** X2: a larger amount never pays a smaller duty. *)
Theorem calc_bsd_monotone (a b : Q) :
  a <= b -> Exact.calc_bsd a <= Exact.calc_bsd b.
Proof.
  intros H. unfold_calc_bsd. repeat split_test; lra.
Qed.

Lemma calc_bsd_monotone_witness :
  Exact.calc_bsd 999999 <= Exact.calc_bsd 1000000.
Proof.
  apply (calc_bsd_monotone 999999 1000000). vm_compute. discriminate.
Defined.

Lemma bsd_within_rates (amount : Q) :
  0 <= amount ->
  amount * 0.01 <= Exact.calc_bsd amount /\
  Exact.calc_bsd amount <= amount * 0.06.
Proof.
  intros H. split; unfold_calc_bsd; repeat split_test; lra.
Qed.



Lemma calc_bsd_brackets_witness :
  Exact.calc_bsd 1800000 == 44600 + (1800000 - 1500000) * 0.05.
Proof.
  destruct (calc_bsd_brackets 1800000) as (_ & _ & _ & _ & H & _).
  apply H; vm_compute; (reflexivity || discriminate).
Defined.

(** Split on the row of [ABSD_TABLE] a profile selects, then on the bucket
    of a count. *)
Ltac absd_row profile :=
  cbv beta iota zeta fix delta
    [Exact.calc_absd Exact.lookup Exact.ABSD_TABLE];
  repeat match goal with
  | |- context [String.eqb profile ?k] => destruct (String.eqb profile k)
  end.

Ltac absd_bucket count :=
  unfold Exact.bucket;
  destruct (Z.eqb_spec count 0); [|destruct (Z.eqb_spec count 1)].

Lemma absd_within_rate (amount : Q) (profile : string) (count : Z) :
  0 <= amount ->
  exists duty,
    Exact.calc_absd amount profile count = Ok duty /\
    0 <= duty /\ duty <= amount * 0.65.
Proof.
  intros H. absd_row profile; absd_bucket count;
    (eexists; split; [reflexivity|]; split; lra).
Qed.

(** X4: [calc_absd] raises nothing, whatever the profile and the count (a
    negative count included, which is charged as two or more properties),
    and on an amount that is not negative the duty lies between 0 and 65%
    of it. *)
Theorem calc_absd_total_bounded (amount : Q) (profile : string) (count : Z) :
  0 <= amount ->
  exists duty,
    Exact.calc_absd amount profile count = Ok duty /\
    0 <= duty /\ duty <= amount * 0.65 /\
    ((count < 0)%Z -> Exact.calc_absd amount profile 2 = Ok duty).
Proof.
  intros H. absd_row profile; absd_bucket count;
    (eexists; split; [reflexivity|];
     split; [lra|]; split; [lra|]; intros; (lia || reflexivity)).
Qed.

Lemma calc_absd_total_bounded_witness :
  exists duty,
    Exact.calc_absd 750000 "PR" (-1) = Ok duty /\
    0 <= duty /\ duty <= 750000 * 0.65 /\
    ((-1 < 0)%Z -> Exact.calc_absd 750000 "PR" 2 = Ok duty).
Proof.
  apply (calc_absd_total_bounded 750000 "PR" (-1)). vm_compute. discriminate.
Defined.

(** X5: owning more properties never lowers the duty: for counts from 0 up and
    an amount that is not negative, the duty at the larger count is at
    least the duty at the smaller one. *)
Theorem calc_absd_monotone_in_count (amount : Q) (profile : string)
    (count1 count2 : Z) :
  0 <= amount -> (0 <= count1)%Z -> (count1 <= count2)%Z ->
  exists duty1 duty2,
    Exact.calc_absd amount profile count1 = Ok duty1 /\
    Exact.calc_absd amount profile count2 = Ok duty2 /\
    duty1 <= duty2.
Proof.
  intros H H1 H2. absd_row profile;
    absd_bucket count1; absd_bucket count2; try lia;
    (eexists; eexists; split; [reflexivity|]; split; [reflexivity|]; lra).
Qed.

Lemma calc_absd_monotone_in_count_witness :
  exists duty1 duty2,
    Exact.calc_absd 1000000 "SC" 1 = Ok duty1 /\
    Exact.calc_absd 1000000 "SC" 4 = Ok duty2 /\
    duty1 <= duty2.
Proof.
  apply (calc_absd_monotone_in_count 1000000 "SC" 1 4);
    vm_compute; discriminate.
Defined.

(** * Further properties of the amortization engine *)





(** X7: the level payment undoes the annuity inversion: the payment on the
    maximum loan, at the stressed rate it was sized with and over the same
    tenure, is the monthly capacity the loan was sized on. *)
Theorem payment_on_max_loan_is_capacity (income debts : Q) (age : Z)
    (tenure rate : Q) (property_type loan_type : string) :
  0 <= rate -> 1 <= tenure * 12 ->
  0 < Exact.monthly_cap income debts property_type ->
  exists loan,
    Exact.calc_max_loan income debts age tenure rate property_type loan_type
      = Ok loan /\
    returns (Exact.amort_payment loan (rate + 3.0) tenure)
            (Exact.monthly_cap income debts property_type).
Proof.
  intros Hr Ht Hc.
  pose proof (stress_rate_pos rate Hr) as R.
  pose proof (months_pos tenure Ht) as N.
  pose proof (growth_gt_1 (rate + 3.0) tenure Ht R) as G.
  unfold Exact.calc_max_loan.
  rewrite (loan_of_cap_pos_rate _ _ R) by lia.
  eexists. split; [reflexivity|].
  set (cap := Exact.monthly_cap income debts property_type) in *.
  set (r := (rate + 3.0) / 12 / 100) in *.
  set (p := (1 + r) ^ int (tenure * 12)) in *.
  assert (L : 0 < cap * (p - 1) / (r * p)).
  { apply Qlt_shift_div_l; nra. }
  rewrite (amort_payment_pos_rate _ _ _ L Ht R).
  fold r. fold p. simpl. field. split; lra.
Qed.

Lemma payment_on_max_loan_is_capacity_witness :
  exists loan,
    Exact.calc_max_loan 12000 0 35 30 3.5 "Private" "Bank" = Ok loan /\
    returns (Exact.amort_payment loan (3.5 + 3.0) 30)
            (Exact.monthly_cap 12000 0 "Private").
Proof.
  apply (payment_on_max_loan_is_capacity 12000 0 35 30 3.5 "Private" "Bank");
    vm_compute; (reflexivity || discriminate).
Defined.

(** ** The balance during, after and without a term *)

Lemma balance_loop_app (pmt r : Q) (a b : nat) :
  forall bal,
  Exact.balance_loop pmt r (a + b) bal =
  Exact.balance_loop pmt r b (Exact.balance_loop pmt r a bal).
Proof.
  induction a as [|a IH]; intros bal.
  - reflexivity.
  - simpl. apply IH.
Qed.

(** Once the balance is 0, every further payment leaves it there. *)
Lemma balance_loop_paid (pmt r : Q) :
  0 <= pmt ->
  forall k bal, bal == 0 -> Exact.balance_loop pmt r k bal == 0.
Proof.
  intros Hp. induction k as [|k IH]; intros bal E.
  - exact E.
  - simpl. apply IH. unfold max.
    destruct (Qltb 0 (bal - (pmt - bal * r))) eqn:T; [|reflexivity].
    apply Qltb_true in T. rewrite E in T. lra.
Qed.

Section Schedule.

Variables (principal annual_rate years : Q).
Hypothesis principal_pos : 0 < principal.
Hypothesis a_month : 1 <= years * 12.

Let r : Q := annual_rate / 12 / 100.
Let n : Z := int (years * 12).

Lemma annuity_schedule (m : nat) :
  0 < r -> (Z.of_nat m <= n)%Z ->
  Exact.balance_loop
    (principal * r * (1 + r) ^ n / ((1 + r) ^ n - 1)) r m principal ==
  principal * ((1 + r) ^ n - (1 + r) ^ Z.of_nat m) / ((1 + r) ^ n - 1).
Proof.
  intros Hr Hm.
  pose proof (growth_gt_1 annual_rate years a_month Hr) as G.
  fold r in G. fold n in G.
  rewrite (balance_loop_tracks _ r
             (fun j => principal * ((1 + r) ^ n - (1 + r) ^ Z.of_nat j)
                       / ((1 + r) ^ n - 1)) m) with (j := 0%nat).
  - reflexivity.
  - intros j Hj. rewrite Qpower_of_nat_succ. field. lra.
  - intros j Hj.
    assert (M : (1 + r) ^ Z.of_nat j <= (1 + r) ^ n).
    { apply Qpower_le_compat_l; [lia|lra]. }
    apply Qle_shift_div_l; [lra|]. nra.
  - lia.
  - simpl (Z.of_nat 0). rewrite Qpower_0_r. field. lra.
Qed.

Lemma straight_line_schedule (m : nat) :
  r == 0 -> (Z.of_nat m <= n)%Z ->
  Exact.balance_loop (principal / inject_Z n) r m principal ==
  principal - inject_Z (Z.of_nat m) * (principal / inject_Z n).
Proof.
  intros Hr Hm.
  pose proof (months_pos_Q years a_month) as HnQ. fold n in HnQ.
  assert (Hq : 0 <= principal / inject_Z n).
  { apply Qle_shift_div_l; lra. }
  rewrite (balance_loop_tracks _ r
             (fun j => principal
                       - inject_Z (Z.of_nat j) * (principal / inject_Z n))
             m) with (j := 0%nat).
  - reflexivity.
  - intros j Hj. rewrite inject_Z_of_nat_succ, Hr. ring.
  - intros j Hj.
    assert (Hjn : inject_Z (Z.of_nat j) <= inject_Z n).
    { rewrite <- Zle_Qle. lia. }
    assert (E : principal == inject_Z n * (principal / inject_Z n)).
    { field. lra. }
    rewrite E at 1. nra.
  - lia.
  - simpl. ring.
Qed.

End Schedule.

(** X8: during the term the simulation follows the closed form of the
    outstanding balance: with interest, after [m <= n] months it is
    [principal * ((1+r)^n - (1+r)^m) / ((1+r)^n - 1)]; without interest it
    falls by [principal / n] a month. *)
Theorem loan_balance_schedule (principal annual_rate years : Q) (m : Z) :
  0 < principal -> 0 <= annual_rate -> 1 <= years * 12 ->
  (0 <= m <= int (years * 12))%Z ->
  let r := annual_rate / 12 / 100 in
  let n := int (years * 12) in
  (0 < annual_rate ->
   returns (Exact.loan_balance principal annual_rate years m)
     (principal * ((1 + r) ^ n - (1 + r) ^ m) / ((1 + r) ^ n - 1))) /\
  (annual_rate == 0 ->
   returns (Exact.loan_balance principal annual_rate years m)
     (principal - inject_Z m * (principal / inject_Z n))).
Proof.
  intros HP Hr Hy Hm r n. unfold Exact.loan_balance. split; intros Hrate.
  - assert (R : 0 < annual_rate / 12 / 100).
    { destruct (rate_cases annual_rate Hr) as [E|E]; [|exact E].
      exfalso. assert (annual_rate == 0); [|lra].
      rewrite <- (Qmult_div_r annual_rate 12) by discriminate.
      rewrite <- (Qmult_div_r (annual_rate / 12) 100) by discriminate.
      rewrite E. ring. }
    rewrite (amort_payment_pos_rate _ _ _ HP Hy R). simpl.
    rewrite (annuity_schedule principal annual_rate years HP Hy
               (Z.to_nat m) R) by lia.
    rewrite Z2Nat.id by lia. reflexivity.
  - assert (R : annual_rate / 12 / 100 == 0).
    { rewrite Hrate. reflexivity. }
    rewrite (amort_payment_zero_rate _ _ _ HP Hy R). simpl.
    rewrite (straight_line_schedule principal annual_rate years HP Hy
               (Z.to_nat m) R) by lia.
    rewrite Z2Nat.id by lia. reflexivity.
Qed.

Lemma loan_balance_schedule_witness :
  let r := 12 / 12 / 100 in
  let n := int (1 * 12) in
  (0 < 12 ->
   returns (Exact.loan_balance 1000 12 1 5)
     (1000 * ((1 + r) ^ n - (1 + r) ^ 5) / ((1 + r) ^ n - 1))) /\
  (12 == 0 ->
   returns (Exact.loan_balance 1000 12 1 5)
     (1000 - inject_Z 5 * (1000 / inject_Z n))).
Proof.
  apply (loan_balance_schedule 1000 12 1 5);
    vm_compute; (reflexivity || discriminate || (split; discriminate)).
Defined.

(** X9: after its term the loan stays paid: for every number of months from
    [int(years * 12)] on, the balance is 0. *)
Theorem loan_balance_after_term (principal annual_rate years : Q) (m : Z) :
  0 < principal -> 0 <= annual_rate -> 1 <= years * 12 ->
  (int (years * 12) <= m)%Z ->
  returns (Exact.loan_balance principal annual_rate years m) 0.
Proof.
  intros HP Hr Hy Hm.
  pose proof (months_pos years Hy) as N.
  unfold Exact.loan_balance.
  replace (Z.to_nat m)
    with (Z.to_nat (int (years * 12))
          + Z.to_nat (m - int (years * 12)))%nat by lia.
  destruct (rate_cases annual_rate Hr) as [R|R].
  - rewrite (amort_payment_zero_rate _ _ _ HP Hy R). simpl.
    rewrite balance_loop_app. apply balance_loop_paid.
    + pose proof (months_pos_Q years Hy). apply Qle_shift_div_l; lra.
    + apply (straight_line_amortized _ _ _ HP Hy R).
  - rewrite (amort_payment_pos_rate _ _ _ HP Hy R). simpl.
    rewrite balance_loop_app. apply balance_loop_paid.
    + apply Qlt_le_weak.
      apply level_payment_bounds;
        [exact HP|exact R|exact (growth_gt_1 _ _ Hy R)].
    + apply (annuity_amortized _ _ _ HP Hy R).
Qed.

Lemma loan_balance_after_term_witness :
  returns (Exact.loan_balance 1000 12 1 15) 0.
Proof.
  apply (loan_balance_after_term 1000 12 1 15);
    vm_compute; (reflexivity || discriminate).
Defined.



(** * The sum of discount factors *)














(** * Further properties of the loan eligibility calculator *)
















(** X17: only the exact strings "HDB" and "EC" bring the MSR cap in: every other
    property type, known or not, is sized as "Private" is, and "EC" as
    "HDB" is. *)
Theorem property_type_fallback (income debts : Q) (age : Z) (tenure rate : Q)
    (property_type loan_type : string) :
  property_type <> "HDB"%string -> property_type <> "EC"%string ->
  Exact.calc_max_loan income debts age tenure rate property_type loan_type =
  Exact.calc_max_loan income debts age tenure rate "Private" loan_type /\
  Exact.calc_max_loan income debts age tenure rate "EC" loan_type =
  Exact.calc_max_loan income debts age tenure rate "HDB" loan_type.
Proof.
  intros H1 H2. split; [|reflexivity].
  unfold Exact.calc_max_loan, Exact.monthly_cap, Exact.avail_msr,
    Exact.msr_cap, Exact.is_hdb_or_ec.
  destruct (String.eqb_spec property_type "HDB"); [contradiction|].
  destruct (String.eqb_spec property_type "EC"); [contradiction|].
  reflexivity.
Qed.

Lemma property_type_fallback_witness :
  Exact.calc_max_loan 12000 0 35 30 3.5 "hdb" "Bank" =
  Exact.calc_max_loan 12000 0 35 30 3.5 "Private" "Bank" /\
  Exact.calc_max_loan 12000 0 35 30 3.5 "EC" "Bank" =
  Exact.calc_max_loan 12000 0 35 30 3.5 "HDB" "Bank".
Proof.
  apply (property_type_fallback 12000 0 35 30 3.5 "hdb" "Bank");
    discriminate.
Defined.

(** * Further properties of the level payment *)







(** * Further properties of the IRR solver *)








(** * The page script *)

(** Read the bounds of the widgets off [in_range]. *)
Ltac range_facts H :=
  unfold App.in_range, App.between, App.betweenZ in H;
  repeat match goal with
  | R : _ && _ = true |- _ =>
      let R1 := fresh "R" in
      let R2 := fresh "R" in
      apply andb_true_iff in R; destruct R as [R1 R2]
  end;
  repeat match goal with
  | R : Qle_bool _ _ = true |- _ => apply Qle_bool_iff in R
  | R : (_ <=? _)%Z = true |- _ => apply Z.leb_le in R
  end.






Lemma base_bounds (w : App.widgets) :
  App.in_range w = true ->
  0 <= App.base w /\ App.price w <= App.base w /\
  (App.base w = App.price w \/ App.base w = App.valuation w).
Proof.
  intros H. range_facts H.
  assert (0 <= App.price w) by assumption.
  assert (0 <= App.valuation w) by assumption.
  unfold App.base, max.
  destruct (App.use_higher w); [|split; [lra|split; [lra|left; reflexivity]]].
  destruct (Qltb (App.price w) (App.valuation w)) eqn:E; tests_to_props.
  - split; [lra|]. split; [lra|right; reflexivity].
  - split; [lra|]. split; [lra|left; reflexivity].
Qed.

(** X25: within the widgets' bounds the second tab raises nothing; the duties
    are charged on a base that is the price or the valuation and never
    below the price, and their total lies between 1% and 71% of it. *)
Theorem total_duties_bounds (w : App.widgets) :
  App.in_range w = true ->
  exists duties,
    App.total_duties w = Ok duties /\
    App.base w * 0.01 <= duties /\ duties <= App.base w * 0.71 /\
    App.price w <= App.base w /\
    (App.base w = App.price w \/ App.base w = App.valuation w).
Proof.
  intros H. destruct (base_bounds w H) as (B0 & BP & BE).
  destruct (absd_within_rate (App.base w) (App.profile w) (App.count w) B0)
    as (absd & E & A0 & A1).
  destruct (bsd_within_rates (App.base w) B0) as [S0 S1].
  exists (App.bsd w + absd). unfold App.total_duties, App.absd.
  rewrite E. split; [reflexivity|]. unfold App.bsd.
  split; [lra|]. split; [lra|]. split; assumption.
Qed.

Lemma total_duties_bounds_witness :
  exists duties,
    App.total_duties App.defaults = Ok duties /\
    App.base App.defaults * 0.01 <= duties /\
    duties <= App.base App.defaults * 0.71 /\
    App.price App.defaults <= App.base App.defaults /\
    (App.base App.defaults = App.price App.defaults \/
     App.base App.defaults = App.valuation App.defaults).
Proof.
  apply (total_duties_bounds App.defaults). vm_compute. reflexivity.
Defined.



(** ** When the eligibility calculator raises *)





(** ** What the inner loop of the solver accumulates *)



